(** * typescript-optional: a shallow embedding of [src/lib/index.ts]

    The library is one abstract class [Optional<T>] with two concrete
    subclasses, [PresentOptional<T>] and [EmptyOptional<T>], and four static
    factories.  Its methods take callbacks, which may have side effects and
    may throw; so a JavaScript call is modelled as a computation over an
    explicit world that ends in a completion (a returned value or a thrown
    one). *)

From Stdlib Require Import ZArith String List Bool Lia.
Import ListNotations.
Open Scope string_scope.
Open Scope list_scope.

(** ** Run-time values *)

(** The [name] of a built-in error object. *)
Inductive ErrorName : Set :=
| Error
| TypeError
| RangeError.

(** The values a variable of a type parameter [T] may hold at run time.
    [null] and [undefined] are values like the others: the payload field of
    [PresentOptional<T>] is an unconstrained [T].  Numbers are the
    integer-valued ones; [VObject] is a reference to a caller's object, equal
    to another reference exactly when it is the same object; an error object
    is given by its [name] and [message]; instances of [Optional] are
    immutable and given by their class and payload. *)
Inductive value : Set :=
| VUndefined
| VNull
| VBool (b : bool)
| VNum (n : Z)
| VStr (s : string)
| VObject (addr : nat)
| VError (name : ErrorName) (message : string)
| VOptional (o : Optional)
with Optional : Set :=
| PresentOptional (payload : value)
| EmptyOptional.

(** [v === null] and [v === undefined]. *)
Definition is_null (v : value) : bool :=
  match v with VNull => true | _ => false end.

Definition is_undefined (v : value) : bool :=
  match v with VUndefined => true | _ => false end.

(** The [name] and [message] properties of a thrown value, when it is an
    error object. *)
Definition error_name (v : value) : option ErrorName :=
  match v with VError n _ => Some n | _ => None end.

Definition error_message (v : value) : option string :=
  match v with VError _ m => Some m | _ => None end.

(** ** Calls: worlds and completions *)

Inductive completion (A : Type) : Type :=
| Normal (a : A)
| Throw (e : value).
Arguments Normal {A} a.
Arguments Throw {A} e.

(** A call runs in a world [W] (whatever the callbacks can read and write)
    and leaves a completion and a world. *)
Definition JS (W A : Type) : Type := W -> completion A * W.

Definition ret {W A} (a : A) : JS W A := fun w => (Normal a, w).

Definition throw {W A} (e : value) : JS W A := fun w => (Throw e, w).

Definition bind {W A B} (c : JS W A) (k : A -> JS W B) : JS W B :=
  fun w =>
    match c w with
    | (Normal a, w') => k a w'
    | (Throw e, w') => (Throw e, w')
    end.

Notation "x <- c ;; k" := (bind c (fun x => k))
  (at level 61, c at next level, right associativity).

(** [new TypeError(message)]. *)
Definition new_TypeError (message : string) : value := VError TypeError message.

(** ** The static members of [Optional] *)

Module Optional.

(** [Optional.of]; [of] is a reserved word here. *)
Definition of_ {W} (v : value) : JS W Optional :=
  if negb (is_null v) && negb (is_undefined v)
  then ret (PresentOptional v)
  else throw (new_TypeError "The passed value was null or undefined.").

Definition ofNonNull {W} (v : value) : JS W Optional :=
  of_ v.

Definition ofNullable {W} (nullable : value) : JS W Optional :=
  if negb (is_null nullable) && negb (is_undefined nullable)
  then ret (PresentOptional nullable)
  else ret EmptyOptional.

Definition empty {W} : JS W Optional :=
  ret EmptyOptional.

End Optional.

(** ** [class PresentOptional<T>]: the methods, given the [payload] field *)

Module PresentOptional.

Definition isPresent (payload : value) : bool := true.

Definition get {W} (payload : value) : JS W value :=
  ret payload.

Definition ifPresent {W} (payload : value)
    (consumer : value -> JS W unit) : JS W unit :=
  _ <- consumer payload ;;
  ret tt.

Definition ifPresentOrElse {W} (payload : value)
    (consumer : value -> JS W unit) (emptyAction : JS W unit) : JS W unit :=
  _ <- consumer payload ;;
  ret tt.

Definition filter {W} (payload : value)
    (predicate : value -> JS W bool) : JS W Optional :=
  let this := PresentOptional payload in
  b <- predicate payload ;;
  if b then ret this else Optional.empty.

Definition map {W} (payload : value)
    (mapper : value -> JS W value) : JS W Optional :=
  u <- mapper payload ;;
  Optional.ofNullable u.

Definition flatMap {W} (payload : value)
    (mapper : value -> JS W Optional) : JS W Optional :=
  mapper payload.

Definition or {W} (payload : value)
    (supplier : JS W Optional) : JS W Optional :=
  let this := PresentOptional payload in
  ret this.

Definition orElse {W} (payload : value) (another : value) : JS W value :=
  ret payload.

Definition orElseGet {W} (payload : value)
    (another : JS W value) : JS W value :=
  ret payload.

Definition orElseThrow {W} (payload : value)
    (exception : JS W value) : JS W value :=
  ret payload.

End PresentOptional.

(** ** [class EmptyOptional<T>] *)

Module EmptyOptional.

Definition isPresent : bool := false.

Definition get {W} : JS W value :=
  throw (new_TypeError "The optional is not present.").

Definition ifPresent {W} (consumer : value -> JS W unit) : JS W unit :=
  ret tt.

Definition ifPresentOrElse {W}
    (consumer : value -> JS W unit) (emptyAction : JS W unit) : JS W unit :=
  _ <- emptyAction ;;
  ret tt.

Definition filter {W} (predicate : value -> JS W bool) : JS W Optional :=
  let this := EmptyOptional in
  ret this.

Definition map {W} (mapper : value -> JS W value) : JS W Optional :=
  Optional.empty.

Definition flatMap {W} (mapper : value -> JS W Optional) : JS W Optional :=
  Optional.empty.

Definition or {W} (supplier : JS W Optional) : JS W Optional :=
  supplier.

Definition orElse {W} (another : value) : JS W value :=
  ret another.

Definition orElseGet {W} (another : JS W value) : JS W value :=
  a <- another ;;
  orElse a.

Definition orElseThrow {W} (exception : JS W value) : JS W value :=
  e <- exception ;;
  throw e.

End EmptyOptional.

(** ** Method calls on an [Optional]: dispatch on the class of the receiver *)

Module Method.

Definition isPresent (this : Optional) : bool :=
  match this with
  | PresentOptional payload => PresentOptional.isPresent payload
  | EmptyOptional => EmptyOptional.isPresent
  end.

(** Defined in the base class. *)
Definition isEmpty (this : Optional) : bool :=
  negb (isPresent this).

Definition get {W} (this : Optional) : JS W value :=
  match this with
  | PresentOptional payload => PresentOptional.get payload
  | EmptyOptional => EmptyOptional.get
  end.

Definition ifPresent {W} (this : Optional)
    (consumer : value -> JS W unit) : JS W unit :=
  match this with
  | PresentOptional payload => PresentOptional.ifPresent payload consumer
  | EmptyOptional => EmptyOptional.ifPresent consumer
  end.

Definition ifPresentOrElse {W} (this : Optional)
    (consumer : value -> JS W unit) (emptyAction : JS W unit) : JS W unit :=
  match this with
  | PresentOptional payload =>
      PresentOptional.ifPresentOrElse payload consumer emptyAction
  | EmptyOptional => EmptyOptional.ifPresentOrElse consumer emptyAction
  end.

Definition filter {W} (this : Optional)
    (predicate : value -> JS W bool) : JS W Optional :=
  match this with
  | PresentOptional payload => PresentOptional.filter payload predicate
  | EmptyOptional => EmptyOptional.filter predicate
  end.

Definition map {W} (this : Optional)
    (mapper : value -> JS W value) : JS W Optional :=
  match this with
  | PresentOptional payload => PresentOptional.map payload mapper
  | EmptyOptional => EmptyOptional.map mapper
  end.

Definition flatMap {W} (this : Optional)
    (mapper : value -> JS W Optional) : JS W Optional :=
  match this with
  | PresentOptional payload => PresentOptional.flatMap payload mapper
  | EmptyOptional => EmptyOptional.flatMap mapper
  end.

Definition or {W} (this : Optional)
    (supplier : JS W Optional) : JS W Optional :=
  match this with
  | PresentOptional payload => PresentOptional.or payload supplier
  | EmptyOptional => EmptyOptional.or supplier
  end.

Definition orElse {W} (this : Optional) (another : value) : JS W value :=
  match this with
  | PresentOptional payload => PresentOptional.orElse payload another
  | EmptyOptional => EmptyOptional.orElse another
  end.

Definition orElseGet {W} (this : Optional)
    (supplier : JS W value) : JS W value :=
  match this with
  | PresentOptional payload => PresentOptional.orElseGet payload supplier
  | EmptyOptional => EmptyOptional.orElseGet supplier
  end.

Definition orElseThrow {W} (this : Optional)
    (errorSupplier : JS W value) : JS W value :=
  match this with
  | PresentOptional payload =>
      PresentOptional.orElseThrow payload errorSupplier
  | EmptyOptional => EmptyOptional.orElseThrow errorSupplier
  end.

End Method.

(** ** Spies: callbacks that record their invocations *)

(** One invocation of a callback: which one, and with what arguments. *)
Record call : Set := Call { callee : string; arguments : list value }.

(** [spy name f] behaves as the one-argument callback [f] on the caller's
    part of the world and appends the invocation to a log kept beside it. *)
Definition spy {W A} (name : string) (f : value -> JS W A)
    : value -> JS (list call * W) A :=
  fun x lw =>
    let (r, w') := f x (snd lw) in
    (r, (fst lw ++ [Call name [x]], w')).

(** The same for a callback without arguments. *)
Definition spy0 {W A} (name : string) (f : JS W A) : JS (list call * W) A :=
  fun lw =>
    let (r, w') := f (snd lw) in
    (r, (fst lw ++ [Call name []], w')).

(** ** Properties of values and instances *)

(** [v] is [null] or [undefined]. *)
Definition nullish (v : value) : Prop := v = VNull \/ v = VUndefined.

(** A present instance does not hold [null] or [undefined]. *)
Definition invariant (o : Optional) : Prop :=
  match o with
  | PresentOptional payload => ~ nullish payload
  | EmptyOptional => True
  end.

(** The instances a client can obtain: the class [Optional] is the only
    export, so an instance comes from a static factory or from a method of
    an instance obtained before.  A callback that returns an [Optional] is
    the client's, and is taken to return instances that satisfy the
    invariant. *)
Inductive produced {W : Type} : Optional -> Prop :=
| produced_of v (w : W) o w' :
    Optional.of_ v w = (Normal o, w') -> produced o
| produced_ofNonNull v (w : W) o w' :
    Optional.ofNonNull v w = (Normal o, w') -> produced o
| produced_ofNullable v (w : W) o w' :
    Optional.ofNullable v w = (Normal o, w') -> produced o
| produced_empty (w : W) o w' :
    Optional.empty w = (Normal o, w') -> produced o
| produced_filter this predicate (w : W) o w' :
    produced this ->
    Method.filter this predicate w = (Normal o, w') -> produced o
| produced_map this mapper (w : W) o w' :
    produced this ->
    Method.map this mapper w = (Normal o, w') -> produced o
| produced_flatMap this mapper (w : W) o w' :
    produced this ->
    (forall x w1 o1 w2, mapper x w1 = (Normal o1, w2) -> invariant o1) ->
    Method.flatMap this mapper w = (Normal o, w') -> produced o
| produced_or this supplier (w : W) o w' :
    produced this ->
    (forall w1 o1 w2, supplier w1 = (Normal o1, w2) -> invariant o1) ->
    Method.or this supplier w = (Normal o, w') -> produced o.

(** ** Callbacks of the scenarios *)

(** [x => x * 2] on numbers. *)
Definition times_two {W} (v : value) : JS W value :=
  match v with
  | VNum n => ret (VNum (n * 2))
  | _ => ret VUndefined
  end.

(** A mapper that has no result for anything but a number. *)
Definition double_or_null (v : value) : JS nat value :=
  match v with
  | VNum n => ret (VNum (n * 2))
  | _ => ret VNull
  end.

(** [s => s.length > 1] on strings. *)
Definition longer_than_one (v : value) : JS nat bool :=
  match v with
  | VStr s => ret (1 <? String.length s)%nat
  | _ => ret false
  end.

(** An error supplier that makes a new object at each call: the world is
    the next free address. *)
Definition fresh_failure : JS nat value :=
  fun next => (Normal (VObject next), S next).

(** [x => Optional.of(x + 1)] on numbers. *)
Definition successor (v : value) : JS unit Optional :=
  match v with
  | VNum n => Optional.of_ (VNum (n + 1))
  | _ => Optional.empty
  end.

(** A callback that throws a new object, whatever it is given. *)
Definition failing {A : Type} : JS nat A :=
  fun next => (Throw (VObject next), S next).

(** [x => x]. *)
Definition identity {W} (v : value) : JS W value := ret v.

(** [() => {}]. *)
Definition noop {W} : JS W unit := ret tt.

(** ** Chains of transforming calls *)

(** One call of a chain [o.filter(p).map(f).flatMap(g)...]. *)
Inductive transform (W : Type) : Type :=
| Filter (predicate : value -> JS W bool)
| Map (mapper : value -> JS W value)
| FlatMap (mapper : value -> JS W Optional).
Arguments Filter {W} predicate.
Arguments Map {W} mapper.
Arguments FlatMap {W} mapper.

Definition transformed {W} (this : Optional) (t : transform W)
    : JS W Optional :=
  match t with
  | Filter predicate => Method.filter this predicate
  | Map mapper => Method.map this mapper
  | FlatMap mapper => Method.flatMap this mapper
  end.

(** The calls of [ts], from left to right, starting on [this]. *)
Fixpoint chain {W} (ts : list (transform W)) (this : Optional)
    : JS W Optional :=
  match ts with
  | [] => ret this
  | t :: ts' =>
      next <- transformed this t ;;
      chain ts' next
  end.

(** * Verification *)

(** ** The test on [null] and [undefined] *)

Lemma test_not_nullish (v : value) :
  ~ nullish v -> negb (is_null v) && negb (is_undefined v) = true.
Proof.
  unfold nullish; intros H.
  destruct v; simpl; try reflexivity; exfalso; apply H; auto.
Qed.

Lemma test_nullish (v : value) :
  nullish v -> negb (is_null v) && negb (is_undefined v) = false.
Proof.
  intros [-> | ->]; reflexivity.
Qed.

Lemma nullish_dec (v : value) : {nullish v} + {~ nullish v}.
Proof.
  unfold nullish.
  destruct v; try (right; intros [H | H]; discriminate H);
    left; auto.
Defined.

Lemma ofNullable_not_nullish {W} (v : value) (w : W) :
  ~ nullish v -> Optional.ofNullable v w = (Normal (PresentOptional v), w).
Proof.
  intros H. unfold Optional.ofNullable.
  now rewrite (test_not_nullish v H).
Qed.

Lemma ofNullable_nullish {W} (v : value) (w : W) :
  nullish v -> Optional.ofNullable v w = (Normal EmptyOptional, w).
Proof.
  intros H. unfold Optional.ofNullable.
  now rewrite (test_nullish v H).
Qed.

Lemma of_not_nullish {W} (v : value) (w : W) :
  ~ nullish v -> Optional.of_ v w = (Normal (PresentOptional v), w).
Proof.
  intros H. unfold Optional.of_.
  now rewrite (test_not_nullish v H).
Qed.

Lemma of_nullish {W} (v : value) (w : W) :
  nullish v ->
  Optional.of_ v w =
    (Throw (VError TypeError "The passed value was null or undefined."), w).
Proof.
  intros H. unfold Optional.of_.
  now rewrite (test_nullish v H).
Qed.

(** What the factories return satisfies the invariant. *)
Lemma ofNullable_invariant {W} (v : value) (w : W) o w' :
  Optional.ofNullable v w = (Normal o, w') -> invariant o.
Proof.
  destruct (nullish_dec v) as [H | H].
  - rewrite (ofNullable_nullish v w H). intros [= <- _]. exact I.
  - rewrite (ofNullable_not_nullish v w H). intros [= <- _]. exact H.
Qed.

Lemma of_invariant {W} (v : value) (w : W) o w' :
  Optional.of_ v w = (Normal o, w') -> invariant o.
Proof.
  destruct (nullish_dec v) as [H | H].
  - rewrite (of_nullish v w H). discriminate.
  - rewrite (of_not_nullish v w H). intros [= <- _]. exact H.
Qed.

(** ** Construction *)

(** C1. For every value [v] other than [null] and [undefined], [of(v)] and
    [ofNullable(v)] return a present instance whose [isPresent] is [true]
    and whose [get()] returns [v]; [ofNullable] of [null] or [undefined]
    returns an empty instance and does not throw; [empty()] returns an empty
    instance.  None of them touches the world. *)
Theorem construction_postconditions (W : Type) (w : W) :
  (forall v, ~ nullish v ->
     Optional.of_ v w = (Normal (PresentOptional v), w) /\
     Optional.ofNullable v w = (Normal (PresentOptional v), w) /\
     Method.isPresent (PresentOptional v) = true /\
     (o <- Optional.of_ v ;; Method.get o) w = (Normal v, w) /\
     (o <- Optional.ofNullable v ;; Method.get o) w = (Normal v, w)) /\
  (forall v, nullish v ->
     Optional.ofNullable v w = (Normal EmptyOptional, w)) /\
  Optional.empty w = (Normal EmptyOptional, w) /\
  Method.isPresent EmptyOptional = false.
Proof.
  split; [| split; [| split]].
  - intros v H.
    unfold bind.
    rewrite (of_not_nullish v w H), (ofNullable_not_nullish v w H).
    repeat split.
  - intros v H. exact (ofNullable_nullish v w H).
  - reflexivity.
  - reflexivity.
Qed.

Lemma construction_postconditions_witness :
  (~ nullish (VNum 42) /\
   Optional.of_ (VNum 42) 0%nat = (Normal (PresentOptional (VNum 42)), 0%nat) /\
   (o <- Optional.ofNullable (VNum 42) ;; Method.get o) 0%nat
     = (Normal (VNum 42), 0%nat)) /\
  (nullish VUndefined /\
   Optional.ofNullable VUndefined 0%nat = (Normal EmptyOptional, 0%nat)).
Proof.
  destruct (construction_postconditions nat 0%nat) as (Hpresent & Hempty & _).
  assert (Hv : ~ nullish (VNum 42)) by (intros [H | H]; discriminate H).
  assert (Hu : nullish VUndefined) by (right; reflexivity).
  destruct (Hpresent (VNum 42) Hv) as (Hof & _ & _ & _ & Hget).
  split.
  - split; [exact Hv | split; [exact Hof | exact Hget]].
  - split; [exact Hu | exact (Hempty VUndefined Hu)].
Defined.

(** ** The two failures of the library itself *)

(** C2, as stated, fails: the errors thrown by [of(null)] and by [get()] on
    an empty instance are not of two kinds; both have the name
    [TypeError]. *)
Lemma error_kinds_coincide :
  ~ (forall e_arg e_state,
       Optional.of_ VNull tt = (Throw e_arg, tt) ->
       Method.get EmptyOptional tt = (Throw e_state, tt) ->
       error_name e_arg <> error_name e_state).
Proof.
  intros H.
  apply (H (VError TypeError "The passed value was null or undefined.")
           (VError TypeError "The optional is not present."));
    reflexivity.
Qed.

(** C2, amended. [of] and its alias [ofNonNull], given [null] or
    [undefined], throw, and [get()] on an empty instance throws; the two
    errors are of one kind, [TypeError], and differ in their message, which
    identifies the failure. *)
Theorem failures_told_apart_by_message (W : Type) (w : W) (v : value) :
  nullish v ->
  exists e_arg e_state,
    Optional.of_ v w = (Throw e_arg, w) /\
    Optional.ofNonNull v w = (Throw e_arg, w) /\
    Method.get EmptyOptional w = (Throw e_state, w) /\
    error_name e_arg = Some TypeError /\
    error_name e_state = Some TypeError /\
    error_message e_arg <> error_message e_state.
Proof.
  intros H.
  exists (VError TypeError "The passed value was null or undefined."),
         (VError TypeError "The optional is not present.").
  unfold Optional.ofNonNull.
  rewrite (of_nullish v w H).
  repeat split; simpl; discriminate.
Qed.

Lemma failures_told_apart_by_message_witness :
  nullish VNull /\
  exists e_arg e_state,
    Optional.of_ VNull 7%nat = (Throw e_arg, 7%nat) /\
    Optional.ofNonNull VNull 7%nat = (Throw e_arg, 7%nat) /\
    Method.get EmptyOptional 7%nat = (Throw e_state, 7%nat) /\
    error_name e_arg = Some TypeError /\
    error_name e_state = Some TypeError /\
    error_message e_arg <> error_message e_state.
Proof.
  assert (H : nullish VNull) by (left; reflexivity).
  split; [exact H |].
  exact (failures_told_apart_by_message nat 7%nat VNull H).
Defined.

(** C10. [of] and [ofNonNull] given [null] or [undefined] throw a
    [TypeError] with the message "The passed value was null or undefined.",
    and [get()] on an empty instance throws a [TypeError] with the message
    "The optional is not present.": one error class, two messages. *)
Theorem both_failures_are_TypeError (W : Type) (w : W) :
  Optional.of_ VNull w
    = (Throw (VError TypeError "The passed value was null or undefined."), w) /\
  Optional.of_ VUndefined w
    = (Throw (VError TypeError "The passed value was null or undefined."), w) /\
  Optional.ofNonNull VNull w
    = (Throw (VError TypeError "The passed value was null or undefined."), w) /\
  Optional.ofNonNull VUndefined w
    = (Throw (VError TypeError "The passed value was null or undefined."), w) /\
  Method.get EmptyOptional w
    = (Throw (VError TypeError "The optional is not present."), w) /\
  error_name (VError TypeError "The passed value was null or undefined.")
    = error_name (VError TypeError "The optional is not present.") /\
  error_message (VError TypeError "The passed value was null or undefined.")
    <> error_message (VError TypeError "The optional is not present.").
Proof.
  repeat split. simpl. discriminate.
Qed.

(** ** Transforming combinators *)

(** Unfolds a method call down to the worlds and completions. *)
Ltac run :=
  cbv [Method.get Method.ifPresent Method.ifPresentOrElse Method.filter
       Method.map Method.flatMap Method.or Method.orElse Method.orElseGet
       Method.orElseThrow Method.isPresent Method.isEmpty
       PresentOptional.get PresentOptional.ifPresent
       PresentOptional.ifPresentOrElse PresentOptional.filter
       PresentOptional.map PresentOptional.flatMap PresentOptional.or
       PresentOptional.orElse PresentOptional.orElseGet
       PresentOptional.orElseThrow PresentOptional.isPresent
       EmptyOptional.get EmptyOptional.ifPresent
       EmptyOptional.ifPresentOrElse EmptyOptional.filter EmptyOptional.map
       EmptyOptional.flatMap EmptyOptional.or EmptyOptional.orElse
       EmptyOptional.orElseGet EmptyOptional.orElseThrow
       EmptyOptional.isPresent Optional.empty
       spy spy0 bind ret throw fst snd].

(** C3. On a present instance, [map(f)] is [ofNullable(f(get()))]: empty
    when [f] returns [null] or [undefined], and otherwise an instance whose
    [get()] returns what [f] returned.  On an empty instance [map] returns an
    empty instance and does not invoke the mapper. *)
Theorem map_spec (W : Type) (f : value -> JS W value) (w : W) :
  (forall x,
     Method.map (PresentOptional x) f w
       = (y <- Method.get (PresentOptional x) ;;
          u <- f y ;;
          Optional.ofNullable u) w) /\
  (forall x u w',
     f x w = (Normal u, w') -> nullish u ->
     Method.map (PresentOptional x) f w = (Normal EmptyOptional, w')) /\
  (forall x u w',
     f x w = (Normal u, w') -> ~ nullish u ->
     (o <- Method.map (PresentOptional x) f ;; Method.get o) w
       = (Normal u, w')) /\
  Method.map EmptyOptional f w = (Normal EmptyOptional, w) /\
  (forall name log,
     Method.map EmptyOptional (spy name f) (log, w)
       = (Normal EmptyOptional, (log, w))).
Proof.
  repeat split.
  - intros x u w' Hf Hu. run. rewrite Hf.
    exact (ofNullable_nullish u w' Hu).
  - intros x u w' Hf Hu. run. rewrite Hf.
    now rewrite (ofNullable_not_nullish u w' Hu).
Qed.

Lemma map_spec_witness :
  (double_or_null (VNum 42) 0%nat = (Normal (VNum 84), 0%nat) /\
   ~ nullish (VNum 84) /\
   (o <- Method.map (PresentOptional (VNum 42)) double_or_null ;;
    Method.get o) 0%nat
     = (Normal (VNum 84), 0%nat)) /\
  (double_or_null (VStr "a") 0%nat = (Normal VNull, 0%nat) /\
   nullish VNull /\
   Method.map (PresentOptional (VStr "a")) double_or_null 0%nat
     = (Normal EmptyOptional, 0%nat)).
Proof.
  destruct (map_spec nat double_or_null 0%nat) as (_ & Hnull & Hget & _).
  assert (H84 : ~ nullish (VNum 84)) by (intros [H | H]; discriminate H).
  assert (Hn : nullish VNull) by (left; reflexivity).
  split.
  - split; [reflexivity | split; [exact H84 |]].
    exact (Hget (VNum 42) (VNum 84) 0%nat eq_refl H84).
  - split; [reflexivity | split; [exact Hn |]].
    exact (Hnull (VStr "a") VNull 0%nat eq_refl Hn).
Defined.

(** C4. On a present instance, [flatMap(f)] is the instance [f(get())], not
    wrapped again, so that [flatMap(f).get()] is [f(get()).get()]; on an
    empty instance [flatMap] returns an empty instance and does not invoke
    the mapper. *)
Theorem flatMap_spec (W : Type) (f : value -> JS W Optional) (w : W) :
  (forall x,
     Method.flatMap (PresentOptional x) f w
       = (y <- Method.get (PresentOptional x) ;; f y) w) /\
  (forall x, Method.flatMap (PresentOptional x) f w = f x w) /\
  (forall x,
     (o <- Method.flatMap (PresentOptional x) f ;; Method.get o) w
       = (y <- Method.get (PresentOptional x) ;;
          o <- f y ;;
          Method.get o) w) /\
  Method.flatMap EmptyOptional f w = (Normal EmptyOptional, w) /\
  (forall name log,
     Method.flatMap EmptyOptional (spy name f) (log, w)
       = (Normal EmptyOptional, (log, w))).
Proof.
  repeat split.
Qed.

(** C5. On a present instance, [filter(p)] returns the instance itself, with
    the same payload, when [p] holds of the payload, and an empty instance
    when it does not; on an empty instance [filter] returns an empty
    instance and does not invoke the predicate. *)
Theorem filter_spec (W : Type) (p : value -> JS W bool) (w : W) :
  (forall x w',
     p x w = (Normal true, w') ->
     Method.filter (PresentOptional x) p w = (Normal (PresentOptional x), w') /\
     (o <- Method.filter (PresentOptional x) p ;; Method.get o) w
       = (Normal x, w')) /\
  (forall x w',
     p x w = (Normal false, w') ->
     Method.filter (PresentOptional x) p w = (Normal EmptyOptional, w')) /\
  Method.filter EmptyOptional p w = (Normal EmptyOptional, w) /\
  (forall name log,
     Method.filter EmptyOptional (spy name p) (log, w)
       = (Normal EmptyOptional, (log, w))).
Proof.
  split; [| split; [| split]].
  - intros x w' Hp. run. now rewrite Hp.
  - intros x w' Hp. run. now rewrite Hp.
  - reflexivity.
  - reflexivity.
Qed.

Lemma filter_spec_witness :
  (longer_than_one (VStr "ab") 0%nat = (Normal true, 0%nat) /\
   Method.filter (PresentOptional (VStr "ab")) longer_than_one 0%nat
     = (Normal (PresentOptional (VStr "ab")), 0%nat)) /\
  (longer_than_one (VStr "a") 0%nat = (Normal false, 0%nat) /\
   Method.filter (PresentOptional (VStr "a")) longer_than_one 0%nat
     = (Normal EmptyOptional, 0%nat)).
Proof.
  destruct (filter_spec nat longer_than_one 0%nat) as (Htrue & Hfalse & _).
  split.
  - split; [reflexivity |].
    exact (proj1 (Htrue (VStr "ab") 0%nat eq_refl)).
  - split; [reflexivity |].
    exact (Hfalse (VStr "a") 0%nat eq_refl).
Defined.

(** ** Fallback combinators *)

(** A call that only passes on what a callback did. *)
Lemma bind_ret_id {W A} (c : JS W A) (w : W) :
  (a <- c ;; ret a) w = c w.
Proof.
  unfold bind, ret. now destruct (c w) as [[a | e] w'].
Qed.

Lemma bind_ret_tt {W} (c : JS W unit) (w : W) :
  (_ <- c ;; ret tt) w = c w.
Proof.
  unfold bind, ret. now destruct (c w) as [[[] | e] w'].
Qed.

(** C6. On a present instance with payload [x], [or(supplier)] returns the
    instance itself and [orElse(y)] and [orElseGet(supplier)] return [x],
    and none of them invokes the supplier; on an empty instance [orElse(y)]
    returns [y], [orElseGet(supplier)] returns [supplier()] and
    [or(supplier)] returns the instance [supplier()]. *)
Theorem fallback_spec (W : Type) (w : W)
    (supplier : JS W Optional) (getter : JS W value) (x y : value) :
  Method.or (PresentOptional x) supplier w = (Normal (PresentOptional x), w) /\
  Method.orElse (PresentOptional x) y w = (Normal x, w) /\
  Method.orElseGet (PresentOptional x) getter w = (Normal x, w) /\
  (forall name log,
     Method.or (PresentOptional x) (spy0 name supplier) (log, w)
       = (Normal (PresentOptional x), (log, w))) /\
  (forall name log,
     Method.orElseGet (PresentOptional x) (spy0 name getter) (log, w)
       = (Normal x, (log, w))) /\
  Method.orElse EmptyOptional y w = (Normal y, w) /\
  Method.orElseGet EmptyOptional getter w = getter w /\
  Method.or EmptyOptional supplier w = supplier w.
Proof.
  repeat split.
  exact (bind_ret_id getter w).
Qed.

(** C7. On a present instance [orElseThrow(errorSupplier)] returns the
    payload and does not invoke [errorSupplier]; on an empty instance it
    invokes [errorSupplier] once and throws the very value that call
    returned. *)
Theorem orElseThrow_spec (W : Type) (w : W) (errorSupplier : JS W value) :
  (forall x,
     Method.orElseThrow (PresentOptional x) errorSupplier w = (Normal x, w)) /\
  (forall x name log,
     Method.orElseThrow (PresentOptional x) (spy0 name errorSupplier) (log, w)
       = (Normal x, (log, w))) /\
  (forall e w',
     errorSupplier w = (Normal e, w') ->
     Method.orElseThrow EmptyOptional errorSupplier w = (Throw e, w')) /\
  (forall e w' name log,
     errorSupplier w = (Normal e, w') ->
     Method.orElseThrow EmptyOptional (spy0 name errorSupplier) (log, w)
       = (Throw e, (log ++ [Call name []], w'))).
Proof.
  split; [| split; [| split]].
  - reflexivity.
  - reflexivity.
  - intros e w' Hs. run. now rewrite Hs.
  - intros e w' name log Hs. run. now rewrite Hs.
Qed.

Lemma orElseThrow_spec_witness :
  fresh_failure 3%nat = (Normal (VObject 3), 4%nat) /\
  Method.orElseThrow EmptyOptional fresh_failure 3%nat = (Throw (VObject 3), 4%nat) /\
  Method.orElseThrow EmptyOptional (spy0 "errorSupplier" fresh_failure) ([], 3%nat)
    = (Throw (VObject 3), ([Call "errorSupplier" []], 4%nat)).
Proof.
  destruct (orElseThrow_spec nat 3%nat fresh_failure) as (_ & _ & Hthrow & Hspy).
  split; [reflexivity | split].
  - exact (Hthrow (VObject 3) 4%nat eq_refl).
  - exact (Hspy (VObject 3) 4%nat "errorSupplier" [] eq_refl).
Defined.

(** ** Side-effecting combinators *)

(** C8. [ifPresent(consumer)] invokes [consumer] on the payload, once, on a
    present instance and does nothing on an empty one;
    [ifPresentOrElse(consumer, emptyAction)] invokes one of its two
    callbacks, once: [consumer] on the payload of a present instance,
    [emptyAction] on an empty one. *)
Theorem side_effects_spec (W : Type) (w : W)
    (consumer : value -> JS W unit) (emptyAction : JS W unit) :
  (forall x, Method.ifPresent (PresentOptional x) consumer w = consumer x w) /\
  Method.ifPresent EmptyOptional consumer w = (Normal tt, w) /\
  (forall x,
     Method.ifPresentOrElse (PresentOptional x) consumer emptyAction w
       = consumer x w) /\
  Method.ifPresentOrElse EmptyOptional consumer emptyAction w
    = emptyAction w /\
  (forall x nc log,
     Method.ifPresent (PresentOptional x) (spy nc consumer) (log, w)
       = (fst (consumer x w), (log ++ [Call nc [x]], snd (consumer x w)))) /\
  (forall nc log,
     Method.ifPresent EmptyOptional (spy nc consumer) (log, w)
       = (Normal tt, (log, w))) /\
  (forall x nc ne log,
     Method.ifPresentOrElse (PresentOptional x)
         (spy nc consumer) (spy0 ne emptyAction) (log, w)
       = (fst (consumer x w), (log ++ [Call nc [x]], snd (consumer x w)))) /\
  (forall nc ne log,
     Method.ifPresentOrElse EmptyOptional
         (spy nc consumer) (spy0 ne emptyAction) (log, w)
       = (fst (emptyAction w), (log ++ [Call ne []], snd (emptyAction w)))).
Proof.
  split; [| split; [| split; [| split; [| split; [| split; [| split]]]]]].
  - intros x. exact (bind_ret_tt (consumer x) w).
  - reflexivity.
  - intros x. exact (bind_ret_tt (consumer x) w).
  - exact (bind_ret_tt emptyAction w).
  - intros x nc log. run. now destruct (consumer x w) as [[[] | e] w'].
  - reflexivity.
  - intros x nc ne log. run. now destruct (consumer x w) as [[[] | e] w'].
  - intros nc ne log. run. now destruct (emptyAction w) as [[[] | e] w'].
Qed.

(** ** The invariant of present instances *)

Lemma produced_satisfies_invariant {W : Type} (o : Optional) :
  @produced W o -> invariant o.
Proof.
  induction 1 as
    [ v w o w' Hcall | v w o w' Hcall | v w o w' Hcall | w o w' Hcall
    | this predicate w o w' Hthis IH Hcall
    | this mapper w o w' Hthis IH Hcall
    | this mapper w o w' Hthis IH Hmapper Hcall
    | this supplier w o w' Hthis IH Hsupplier Hcall ].
  - exact (of_invariant v w o w' Hcall).
  - exact (of_invariant v w o w' Hcall).
  - exact (ofNullable_invariant v w o w' Hcall).
  - injection Hcall as <- _. exact I.
  - destruct this as [x |]; revert Hcall; run.
    + destruct (predicate x w) as [[[] | e] w1]; intros [= <- _];
        [exact IH | exact I].
    + intros [= <- _]. exact I.
  - destruct this as [x |]; revert Hcall; run.
    + destruct (mapper x w) as [[u | e] w1] eqn:Hm; [| discriminate].
      exact (ofNullable_invariant u w1 o w').
    + intros [= <- _]. exact I.
  - destruct this as [x |]; revert Hcall; run.
    + exact (Hmapper x w o w').
    + intros [= <- _]. exact I.
  - destruct this as [x |]; revert Hcall; run.
    + intros [= <- _]. exact IH.
    + exact (Hsupplier w o w').
Qed.

(** Conversely every instance that satisfies the invariant is obtained from
    a factory, so [produced] leaves none of them out. *)
Lemma invariant_is_produced {W : Type} (w : W) (o : Optional) :
  invariant o -> @produced W o.
Proof.
  destruct o as [x |]; simpl; intros H.
  - exact (produced_of x w _ w (of_not_nullish x w H)).
  - exact (produced_empty w _ w eq_refl).
Qed.

(** C9. An instance obtained through the public interface (from [of],
    [ofNonNull], [ofNullable], [empty], or from [filter], [map], [flatMap]
    or [or] on such an instance, with callbacks whose instances satisfy the
    invariant) holds, when present, a payload other than [null] and
    [undefined]; so [get()] never returns [null] or [undefined] on it. *)
Theorem non_sentinel_invariant (W : Type) (o : Optional) :
  @produced W o ->
  invariant o /\
  (forall x, o = PresentOptional x -> ~ nullish x) /\
  (forall (w : W) v w', Method.get o w = (Normal v, w') -> ~ nullish v).
Proof.
  intros Hp.
  assert (Hi : invariant o) by exact (produced_satisfies_invariant o Hp).
  split; [exact Hi | split].
  - intros x ->. exact Hi.
  - intros w v w'. destruct o as [x |]; run.
    + intros [= <- _]. exact Hi.
    + discriminate.
Qed.

Lemma non_sentinel_invariant_witness :
  (o1 <- Optional.of_ (VNum 1) ;; Method.flatMap o1 successor) tt
    = (Normal (PresentOptional (VNum 2)), tt) /\
  @produced unit (PresentOptional (VNum 2)) /\
  invariant (PresentOptional (VNum 2)) /\
  (forall v w',
     Method.get (PresentOptional (VNum 2)) tt = (Normal v, w') ->
     ~ nullish v).
Proof.
  pose (o := PresentOptional (VNum 2)).
  assert (Hs : forall x w1 o1 w2,
             successor x w1 = (Normal o1, w2) -> invariant o1).
  { intros x w1 o1 w2. unfold successor.
    destruct x; try (intros [= <- _]; exact I).
    exact (of_invariant _ w1 o1 w2). }
  assert (Hp : @produced unit o).
  { apply (produced_flatMap (PresentOptional (VNum 1)) successor tt o tt).
    - exact (produced_of (VNum 1) tt _ tt eq_refl).
    - exact Hs.
    - reflexivity. }
  destruct (non_sentinel_invariant unit o Hp) as (Hi & _ & Hget).
  split; [reflexivity | split; [exact Hp | split; [exact Hi |]]].
  exact (Hget tt).
Defined.

(** ** The scenarios of the specification *)

(** [Optional.of(42).map(x => x * 2).orElse(0)] is [84]. *)
Example scenario_map_orElse :
  (o <- Optional.of_ (VNum 42) ;;
   m <- Method.map o times_two ;;
   Method.orElse m (VNum 0)) tt = (Normal (VNum 84), tt).
Proof. reflexivity. Qed.

(** [Optional.empty().map(x => x * 2).orElse(0)] is [0]. *)
Example scenario_empty_map_orElse :
  (o <- Optional.empty ;;
   m <- Method.map o times_two ;;
   Method.orElse m (VNum 0)) tt = (Normal (VNum 0), tt).
Proof. reflexivity. Qed.

(** [Optional.of(5).map(x => null).isEmpty] is [true]. *)
Example scenario_map_to_null :
  (o <- Optional.of_ (VNum 5) ;;
   m <- Method.map o (fun _ => ret VNull) ;;
   ret (Method.isEmpty m)) tt = (Normal true, tt).
Proof. reflexivity. Qed.

(** [Optional.ofNullable(null).ifPresentOrElse(consumer, emptyAction)] runs
    [emptyAction], once, and not [consumer]. *)
Example scenario_ifPresentOrElse_empty :
  (o <- Optional.ofNullable VNull ;;
   Method.ifPresentOrElse o
     (spy "consumer" (fun _ => ret tt)) (spy0 "emptyAction" (ret tt)))
    ([], tt)
  = (Normal tt, ([Call "emptyAction" []], tt)).
Proof. reflexivity. Qed.

(** A predicate that counts its invocations is not invoked by
    [empty().filter(predicate)]: the counter stays at [0]. *)
Example scenario_filter_counter :
  (o <- Optional.empty ;;
   Method.filter o (fun _ (n : nat) => (Normal true, S n))) 0%nat
  = (Normal EmptyOptional, 0%nat).
Proof. reflexivity. Qed.


(** * Further properties of the library *)

(** ** Presence and extraction *)



(** X2. [ofNonNull] is [of]; [of(v)] returns exactly when [ofNullable(v)]
    is present, and then both return the same instance; [of(v)] throws
    exactly when [ofNullable(v)] is empty. *)
Theorem of_agrees_with_ofNullable (W : Type) (v : value) (w : W) :
  Optional.ofNonNull v w = Optional.of_ v w /\
  (forall o w',
     Optional.of_ v w = (Normal o, w') <->
     Optional.ofNullable v w = (Normal o, w') /\ Method.isPresent o = true) /\
  ((exists e, Optional.of_ v w = (Throw e, w)) <->
     Optional.ofNullable v w = (Normal EmptyOptional, w)).
Proof.
  split; [reflexivity |].
  destruct (nullish_dec v) as [H | H].
  - rewrite (of_nullish v w H), (ofNullable_nullish v w H). split.
    + intros o w'. split; [discriminate |].
      intros [[= <- _] Hp]. discriminate Hp.
    + split; [reflexivity | intros _; eexists; reflexivity].
  - rewrite (of_not_nullish v w H), (ofNullable_not_nullish v w H). split.
    + intros o w'. split.
      * intros [= <- <-]. split; reflexivity.
      * intros [Heq _]. exact Heq.
    + split; [intros [e He]; discriminate He | discriminate].
Qed.

Lemma of_agrees_with_ofNullable_witness :
  (Optional.ofNullable (VNum 7) 0%nat
     = (Normal (PresentOptional (VNum 7)), 0%nat) /\
   Optional.of_ (VNum 7) 0%nat = (Normal (PresentOptional (VNum 7)), 0%nat)) /\
  (Optional.ofNullable VNull 0%nat = (Normal EmptyOptional, 0%nat) /\
   exists e, Optional.of_ VNull 0%nat = (Throw e, 0%nat)).
Proof.
  destruct (of_agrees_with_ofNullable nat (VNum 7) 0%nat) as (_ & Hsame & _).
  destruct (of_agrees_with_ofNullable nat VNull 0%nat) as (_ & _ & Hthrow).
  split.
  - split; [reflexivity |].
    exact (proj2 (Hsame (PresentOptional (VNum 7)) 0%nat)
             (conj eq_refl eq_refl)).
  - split; [reflexivity | exact (proj2 Hthrow eq_refl)].
Defined.

(** X3. The extraction methods are instances of one another: [get()] is
    [orElseThrow] with a supplier of its own [TypeError], [orElse(y)] is
    [orElseGet(() => y)], and [orElse(y)] is [get()] on an instance whose
    [isPresent] is [true] and [y] on the others. *)
Theorem extraction_methods_related
    (W : Type) (o : Optional) (y : value) (w : W) :
  Method.get o w
    = Method.orElseThrow o
        (ret (new_TypeError "The optional is not present.")) w /\
  Method.orElse o y w = Method.orElseGet o (ret y) w /\
  Method.orElse o y w
    = (if Method.isPresent o then Method.get o w else (Normal y, w)).
Proof.
  destruct o as [x |]; repeat split.
Qed.

(** X4. [ifPresent(c)] is [ifPresentOrElse(c, () => {})], and
    [ifPresentOrElse(c, a)] behaves as [ifPresent(c)] on an instance whose
    [isPresent] is [true] and as the call [a()] on the others. *)
Theorem side_effect_methods_related (W : Type) (o : Optional) (w : W)
    (consumer : value -> JS W unit) (emptyAction : JS W unit) :
  Method.ifPresent o consumer w = Method.ifPresentOrElse o consumer noop w /\
  Method.ifPresentOrElse o consumer emptyAction w
    = (if Method.isPresent o
       then Method.ifPresent o consumer w
       else emptyAction w).
Proof.
  destruct o as [x |]; split; try reflexivity.
  exact (bind_ret_tt emptyAction w).
Qed.

(** ** Errors of callbacks *)

(** X5. [filter], [map] and [flatMap] throw exactly when the instance is
    present and the callback, invoked on the payload, throws; what is thrown
    is the callback's own value and the world is the one the callback left:
    nothing is caught, wrapped or added. *)
Theorem transforming_methods_throw_from_callback
    (W : Type) (o : Optional) (w w' : W) (e : value) :
  (forall predicate,
     Method.filter o predicate w = (Throw e, w') <->
     exists x, o = PresentOptional x /\ predicate x w = (Throw e, w')) /\
  (forall mapper,
     Method.map o mapper w = (Throw e, w') <->
     exists x, o = PresentOptional x /\ mapper x w = (Throw e, w')) /\
  (forall mapper,
     Method.flatMap o mapper w = (Throw e, w') <->
     exists x, o = PresentOptional x /\ mapper x w = (Throw e, w')).
Proof.
  destruct o as [x |]; (split; [| split]); intros f; run; split;
    try discriminate;
    try (intros (y & Hy & _); discriminate Hy).
  - destruct (f x w) as [[[] | e1] w1] eqn:Hf; try discriminate.
    intros [= <- <-]. exists x. split; [reflexivity | exact Hf].
  - intros (y & [= <-] & ->). reflexivity.
  - destruct (f x w) as [[u | e1] w1] eqn:Hf.
    + unfold Optional.ofNullable.
      destruct (negb (is_null u) && negb (is_undefined u)); discriminate.
    + intros [= <- <-]. exists x. split; [reflexivity | exact Hf].
  - intros (y & [= <-] & ->). reflexivity.
  - intros H. exists x. split; [reflexivity | exact H].
  - intros (y & [= <-] & H). exact H.
Qed.

Lemma transforming_methods_throw_from_callback_witness :
  Method.filter (PresentOptional (VNum 1)) (fun _ => failing) 5%nat
    = (Throw (VObject 5), 6%nat) /\
  Method.map (PresentOptional (VNum 1)) (fun _ => failing) 5%nat
    = (Throw (VObject 5), 6%nat) /\
  Method.flatMap (PresentOptional (VNum 1)) (fun _ => failing) 5%nat
    = (Throw (VObject 5), 6%nat).
Proof.
  destruct (transforming_methods_throw_from_callback
              nat (PresentOptional (VNum 1)) 5%nat 6%nat (VObject 5))
    as (Hfilter & Hmap & HflatMap).
  split; [| split].
  - apply (proj2 (Hfilter (fun _ => failing))).
    exists (VNum 1). split; reflexivity.
  - apply (proj2 (Hmap (fun _ => failing))).
    exists (VNum 1). split; reflexivity.
  - apply (proj2 (HflatMap (fun _ => failing))).
    exists (VNum 1). split; reflexivity.
Defined.

(** X6. [or], [orElseGet], [ifPresent] and [ifPresentOrElse] throw exactly
    when the one callback they invoke throws (the supplier or [emptyAction]
    on an empty instance, the consumer on a present one), and then they
    throw its value; [orElse] never throws. *)
Theorem fallback_methods_throw_from_callback
    (W : Type) (o : Optional) (w w' : W) (e : value) :
  (forall supplier,
     Method.or o supplier w = (Throw e, w') <->
     o = EmptyOptional /\ supplier w = (Throw e, w')) /\
  (forall supplier,
     Method.orElseGet o supplier w = (Throw e, w') <->
     o = EmptyOptional /\ supplier w = (Throw e, w')) /\
  (forall consumer,
     Method.ifPresent o consumer w = (Throw e, w') <->
     exists x, o = PresentOptional x /\ consumer x w = (Throw e, w')) /\
  (forall consumer emptyAction,
     Method.ifPresentOrElse o consumer emptyAction w = (Throw e, w') <->
     (exists x, o = PresentOptional x /\ consumer x w = (Throw e, w')) \/
     (o = EmptyOptional /\ emptyAction w = (Throw e, w'))) /\
  (forall y, Method.orElse o y w <> (Throw e, w')).
Proof.
  split; [| split; [| split; [| split]]].
  - intros s. destruct o as [x |]; run; split; try discriminate.
    + intros [Ho _]. discriminate Ho.
    + intros H. split; [reflexivity | exact H].
    + intros [_ H]. exact H.
  - intros s. destruct o as [x |].
    + split; [discriminate | intros [Ho _]; discriminate Ho].
    + change (Method.orElseGet EmptyOptional s w)
        with ((a <- s ;; ret a) w).
      rewrite bind_ret_id. split.
      * intros H. split; [reflexivity | exact H].
      * intros [_ H]. exact H.
  - intros c. destruct o as [x |].
    + change (Method.ifPresent (PresentOptional x) c w)
        with ((_ <- c x ;; ret tt) w).
      rewrite bind_ret_tt. split.
      * intros H. now exists x.
      * intros (y & [= <-] & H). exact H.
    + split; [discriminate | intros (y & Hy & _); discriminate Hy].
  - intros c a. destruct o as [x |].
    + change (Method.ifPresentOrElse (PresentOptional x) c a w)
        with ((_ <- c x ;; ret tt) w).
      rewrite bind_ret_tt. split.
      * intros H. left. now exists x.
      * intros [(y & [= <-] & H) | [Ho _]]; [exact H | discriminate Ho].
    + change (Method.ifPresentOrElse EmptyOptional c a w)
        with ((_ <- a ;; ret tt) w).
      rewrite bind_ret_tt. split.
      * intros H. right. split; [reflexivity | exact H].
      * intros [(y & Hy & _) | [_ H]]; [discriminate Hy | exact H].
  - intros y. destruct o as [x |]; discriminate.
Qed.

Lemma fallback_methods_throw_from_callback_witness :
  Method.or EmptyOptional failing 2%nat = (Throw (VObject 2), 3%nat) /\
  Method.orElseGet EmptyOptional failing 2%nat = (Throw (VObject 2), 3%nat) /\
  Method.ifPresent (PresentOptional VNull) (fun _ => failing) 2%nat
    = (Throw (VObject 2), 3%nat) /\
  Method.ifPresentOrElse EmptyOptional (fun _ => noop) failing 2%nat
    = (Throw (VObject 2), 3%nat).
Proof.
  destruct (fallback_methods_throw_from_callback
              nat EmptyOptional 2%nat 3%nat (VObject 2))
    as (Hor & HorElseGet & _ & HifPresentOrElse & _).
  destruct (fallback_methods_throw_from_callback
              nat (PresentOptional VNull) 2%nat 3%nat (VObject 2))
    as (_ & _ & HifPresent & _).
  split; [| split; [| split]].
  - apply (proj2 (Hor failing)). split; reflexivity.
  - apply (proj2 (HorElseGet failing)). split; reflexivity.
  - apply (proj2 (HifPresent (fun _ => failing))).
    exists VNull. split; reflexivity.
  - apply (proj2 (HifPresentOrElse (fun _ => noop) failing)).
    right. split; reflexivity.
Defined.

(** X7. [orElseThrow(errorSupplier)] throws exactly on an empty instance
    whose supplier returns (then the returned value is thrown) or throws
    (then the supplier's own error passes through); it returns exactly on a
    present instance.  An empty instance never makes it return, also not
    when the supplier returns [null] or [undefined]. *)
Theorem orElseThrow_outcomes
    (W : Type) (o : Optional) (errorSupplier : JS W value) (w w' : W) :
  (forall e,
     Method.orElseThrow o errorSupplier w = (Throw e, w') <->
     o = EmptyOptional /\
     (errorSupplier w = (Normal e, w') \/ errorSupplier w = (Throw e, w'))) /\
  (forall v,
     Method.orElseThrow o errorSupplier w = (Normal v, w') <->
     o = PresentOptional v /\ w' = w).
Proof.
  destruct o as [x |]; run; split.
  - intros e. split; [discriminate | intros [Ho _]; discriminate Ho].
  - intros v. split.
    + intros [= -> ->]. split; reflexivity.
    + intros [[= ->] ->]. reflexivity.
  - intros e. destruct (errorSupplier w) as [[u | e1] w1]; split.
    + intros [= -> ->]. split; [reflexivity | left; reflexivity].
    + intros [_ [[= -> ->] | H]]; [reflexivity | discriminate H].
    + intros [= -> ->]. split; [reflexivity | right; reflexivity].
    + intros [_ [H | [= -> ->]]]; [discriminate H | reflexivity].
  - intros v. destruct (errorSupplier w) as [[u | e1] w1]; split;
      try discriminate; intros [Ho _]; discriminate Ho.
Qed.

Lemma orElseThrow_outcomes_witness :
  Method.orElseThrow EmptyOptional failing 2%nat = (Throw (VObject 2), 3%nat) /\
  Method.orElseThrow EmptyOptional (ret VNull) 2%nat = (Throw VNull, 2%nat) /\
  Method.orElseThrow (PresentOptional (VNum 1)) failing 2%nat
    = (Normal (VNum 1), 2%nat).
Proof.
  split; [| split].
  - apply (proj2 (proj1 (orElseThrow_outcomes nat EmptyOptional failing
                           2%nat 3%nat) (VObject 2))).
    split; [reflexivity | right; reflexivity].
  - apply (proj2 (proj1 (orElseThrow_outcomes nat EmptyOptional (ret VNull)
                           2%nat 2%nat) VNull)).
    split; [reflexivity | left; reflexivity].
  - apply (proj2 (proj2 (orElseThrow_outcomes nat (PresentOptional (VNum 1))
                           failing 2%nat 2%nat) (VNum 1))).
    split; reflexivity.
Defined.

(** ** How the methods compose *)

(** X8. The factories are units of [flatMap] on the values and instances
    that respect the invariant: [of(x).flatMap(f)] and
    [ofNullable(x).flatMap(f)] are [f(x)] when [x] is not [null] or
    [undefined], and [o.flatMap(Optional.of)] and
    [o.flatMap(Optional.ofNullable)] return [o] when [o] satisfies the
    invariant. *)
Theorem flatMap_units (W : Type) (w : W) :
  (forall x (f : value -> JS W Optional),
     ~ nullish x ->
     (o <- Optional.of_ x ;; Method.flatMap o f) w = f x w /\
     (o <- Optional.ofNullable x ;; Method.flatMap o f) w = f x w) /\
  (forall o,
     invariant o ->
     Method.flatMap o Optional.of_ w = (Normal o, w) /\
     Method.flatMap o Optional.ofNullable w = (Normal o, w)).
Proof.
  split.
  - intros x f H. unfold bind.
    rewrite (of_not_nullish x w H), (ofNullable_not_nullish x w H).
    split; reflexivity.
  - intros [x |] H; run.
    + split; [exact (of_not_nullish x w H)
             | exact (ofNullable_not_nullish x w H)].
    + split; reflexivity.
Qed.

Lemma flatMap_units_witness :
  (~ nullish (VNum 1) /\
   (o <- Optional.of_ (VNum 1) ;; Method.flatMap o successor) tt
     = successor (VNum 1) tt) /\
  (invariant (PresentOptional (VNum 1)) /\
   Method.flatMap (PresentOptional (VNum 1)) Optional.of_ tt
     = (Normal (PresentOptional (VNum 1)), tt)).
Proof.
  destruct (flatMap_units unit tt) as (Hleft & Hright).
  assert (H1 : ~ nullish (VNum 1)) by (intros [H | H]; discriminate H).
  split.
  - split; [exact H1 |].
    exact (proj1 (Hleft (VNum 1) successor H1)).
  - split; [exact H1 |].
    exact (proj1 (Hright (PresentOptional (VNum 1)) H1)).
Defined.

(** X9. [flatMap] is associative,
    [o.flatMap(f).flatMap(g)] is [o.flatMap(x => f(x).flatMap(g))], and
    [map(f)] is [flatMap(x => Optional.ofNullable(f(x)))]; both hold for the
    callbacks' effects and errors too. *)
Theorem flatMap_associative (W : Type) (o : Optional) (w : W) :
  (forall f g : value -> JS W Optional,
     (m <- Method.flatMap o f ;; Method.flatMap m g) w
       = Method.flatMap o (fun x => m <- f x ;; Method.flatMap m g) w) /\
  (forall f : value -> JS W value,
     Method.map o f w
       = Method.flatMap o (fun x => u <- f x ;; Optional.ofNullable u) w).
Proof.
  destruct o as [x |]; split; reflexivity.
Qed.

(** X10. Two [map] calls fuse into one only where the first mapper has a
    result: if [f] does not return [null] or [undefined] on the payload,
    [o.map(f).map(g)] is [o.map(x => g(f(x)))]; if it does,
    [o.map(f).map(g)] is empty and [g] is not invoked, whereas
    [o.map(x => g(f(x)))] invokes [g] on that [null] or [undefined].
    [o.map(x => x)] returns [o] when [o] satisfies the invariant. *)
Theorem map_fusion (W : Type) (w : W) (f g : value -> JS W value) :
  (forall o,
     (forall x u w', o = PresentOptional x ->
                     f x w = (Normal u, w') -> ~ nullish u) ->
     (m <- Method.map o f ;; Method.map m g) w
       = Method.map o (fun x => u <- f x ;; g u) w) /\
  (forall x u w',
     f x w = (Normal u, w') -> nullish u ->
     (m <- Method.map (PresentOptional x) f ;; Method.map m g) w
       = (Normal EmptyOptional, w') /\
     Method.map (PresentOptional x) (fun x => u <- f x ;; g u) w
       = (r <- g u ;; Optional.ofNullable r) w') /\
  (forall o, invariant o -> Method.map o identity w = (Normal o, w)).
Proof.
  split; [| split].
  - intros [x |] H; [| reflexivity].
    run. destruct (f x w) as [[u | e] w1] eqn:Hf; [| reflexivity].
    now rewrite (ofNullable_not_nullish u w1 (H x u w1 eq_refl Hf)).
  - intros x u w' Hf Hu. run. rewrite Hf.
    rewrite (ofNullable_nullish u w' Hu). split; reflexivity.
  - intros [x |] H; run; [| reflexivity].
    exact (ofNullable_not_nullish x w H).
Qed.

Lemma map_fusion_witness :
  (m <- Method.map (PresentOptional (VNum 3)) double_or_null ;;
   Method.map m double_or_null) 0%nat
    = (Normal (PresentOptional (VNum 12)), 0%nat) /\
  (m <- Method.map (PresentOptional (VStr "a")) double_or_null ;;
   Method.map m (fun _ => failing)) 0%nat
    = (Normal EmptyOptional, 0%nat) /\
  Method.map (PresentOptional (VStr "a"))
      (fun x => u <- double_or_null x ;; failing) 0%nat
    = (Throw (VObject 0), 1%nat) /\
  Method.map (PresentOptional (VNum 3)) identity 0%nat
    = (Normal (PresentOptional (VNum 3)), 0%nat).
Proof.
  destruct (map_fusion nat 0%nat double_or_null double_or_null)
    as (Hfuse & _ & Hid).
  destruct (map_fusion nat 0%nat double_or_null (fun _ => failing))
    as (_ & Hnull & _).
  assert (H3 : ~ nullish (VNum 3)) by (intros [H | H]; discriminate H).
  assert (Hn : nullish VNull) by (left; reflexivity).
  split; [| split; [| split]].
  - rewrite (Hfuse (PresentOptional (VNum 3))); [reflexivity |].
    intros x u w' [= <-] [= <- _] [H | H]; discriminate H.
  - exact (proj1 (Hnull (VStr "a") VNull 0%nat eq_refl Hn)).
  - rewrite (proj2 (Hnull (VStr "a") VNull 0%nat eq_refl Hn)). reflexivity.
  - exact (Hid (PresentOptional (VNum 3)) H3).
Defined.

(** X11. [filter] returns the instance it is called on or an empty one,
    never another payload, so a present result means a present receiver;
    and [o.filter(p).filter(q)] is [o.filter(x => p(x) && q(x))], where [q]
    is invoked only if [p] held. *)
Theorem filter_laws (W : Type) (o : Optional) (w : W)
    (p q : value -> JS W bool) :
  (forall r w',
     Method.filter o p w = (Normal r, w') ->
     (r = o \/ r = EmptyOptional) /\
     (Method.isPresent r = true -> Method.isPresent o = true)) /\
  (m <- Method.filter o p ;; Method.filter m q) w
    = Method.filter o (fun x => b <- p x ;; if b then q x else ret false) w.
Proof.
  destruct o as [x |]; run; split; try reflexivity.
  - intros r w'. destruct (p x w) as [[[] | e] w1]; intros [= <- _];
      split; auto.
  - destruct (p x w) as [[[] | e] w1]; reflexivity.
  - intros r w' [= <- _]. split; auto.
Qed.

Lemma filter_laws_witness :
  Method.filter (PresentOptional (VStr "ab")) longer_than_one 0%nat
    = (Normal (PresentOptional (VStr "ab")), 0%nat) /\
  (PresentOptional (VStr "ab") = PresentOptional (VStr "ab") \/
   PresentOptional (VStr "ab") = EmptyOptional).
Proof.
  split; [reflexivity |].
  exact (proj1 (proj1 (filter_laws nat (PresentOptional (VStr "ab")) 0%nat
                         longer_than_one longer_than_one)
                 (PresentOptional (VStr "ab")) 0%nat eq_refl)).
Defined.

(** X12. [or] is associative, [o.or(s).or(t)] is [o.or(() => s().or(t))],
    and [Optional.empty] is its unit on the right: [o.or(Optional.empty)]
    returns [o].  The result of [o.or(s)] is present whenever [o] is. *)
Theorem or_laws (W : Type) (o : Optional) (w : W) (s t : JS W Optional) :
  (m <- Method.or o s ;; Method.or m t) w
    = Method.or o (m <- s ;; Method.or m t) w /\
  Method.or o Optional.empty w = (Normal o, w) /\
  (forall r w',
     Method.or o s w = (Normal r, w') ->
     Method.isPresent o = true -> r = o /\ w' = w).
Proof.
  destruct o as [x |]; run; (split; [| split]); try reflexivity.
  - intros r w' [= <- <-] _. split; reflexivity.
  - intros r w' _ Hp. discriminate Hp.
Qed.

Lemma or_laws_witness :
  Method.or (PresentOptional (VNum 1)) failing 0%nat
    = (Normal (PresentOptional (VNum 1)), 0%nat) /\
  Method.isPresent (PresentOptional (VNum 1)) = true /\
  PresentOptional (VNum 1) = PresentOptional (VNum 1) /\ 0%nat = 0%nat.
Proof.
  split; [reflexivity | split; [reflexivity |]].
  exact (proj2 (proj2 (or_laws nat (PresentOptional (VNum 1)) 0%nat
                         failing failing))
           (PresentOptional (VNum 1)) 0%nat eq_refl eq_refl).
Defined.

(** X13. An instance and a nullable value are two forms of one thing:
    [Optional.ofNullable(o.orElse(null))] returns [o] when [o] satisfies
    the invariant, and [Optional.ofNullable(v).orElse(null)] returns [v]
    when [v] is not [null] or [undefined] and [null] when it is (so
    [undefined] comes back as [null]). *)
Theorem nullable_round_trip (W : Type) (w : W) :
  (forall o,
     invariant o ->
     (v <- Method.orElse o VNull ;; Optional.ofNullable v) w
       = (Normal o, w)) /\
  (forall v,
     ~ nullish v ->
     (o <- Optional.ofNullable v ;; Method.orElse o VNull) w
       = (Normal v, w)) /\
  (forall v,
     nullish v ->
     (o <- Optional.ofNullable v ;; Method.orElse o VNull) w
       = (Normal VNull, w)).
Proof.
  split; [| split].
  - intros [x |] H; run; [| reflexivity].
    exact (ofNullable_not_nullish x w H).
  - intros v H. unfold bind.
    now rewrite (ofNullable_not_nullish v w H).
  - intros v H. unfold bind.
    now rewrite (ofNullable_nullish v w H).
Qed.

Lemma nullable_round_trip_witness :
  (invariant (PresentOptional (VStr "a")) /\
   (v <- Method.orElse (PresentOptional (VStr "a")) VNull ;;
    Optional.ofNullable v) tt
     = (Normal (PresentOptional (VStr "a")), tt)) /\
  (~ nullish (VStr "a") /\
   (o <- Optional.ofNullable (VStr "a") ;; Method.orElse o VNull) tt
     = (Normal (VStr "a"), tt)) /\
  (nullish VUndefined /\
   (o <- Optional.ofNullable VUndefined ;; Method.orElse o VNull) tt
     = (Normal VNull, tt)).
Proof.
  destruct (nullable_round_trip unit tt) as (Hback & Hforth & Hnull).
  assert (Ha : ~ nullish (VStr "a")) by (intros [H | H]; discriminate H).
  assert (Hu : nullish VUndefined) by (right; reflexivity).
  split; [| split].
  - split; [exact Ha | exact (Hback (PresentOptional (VStr "a")) Ha)].
  - split; [exact Ha | exact (Hforth (VStr "a") Ha)].
  - split; [exact Hu | exact (Hnull VUndefined Hu)].
Defined.

(** ** Chains *)

Lemma chain_empty {W} (ts : list (transform W)) (w : W) :
  chain ts EmptyOptional w = (Normal EmptyOptional, w).
Proof.
  induction ts as [| t ts IH]; [reflexivity |].
  destruct t; exact IH.
Qed.

Lemma chain_app {W} (ts1 ts2 : list (transform W)) (o : Optional) (w : W) :
  chain (ts1 ++ ts2) o w = (m <- chain ts1 o ;; chain ts2 m) w.
Proof.
  revert o w. induction ts1 as [| t ts1 IH]; intros o w; [reflexivity |].
  simpl. unfold bind.
  destruct (transformed o t w) as [[m | e] w1]; [| reflexivity].
  rewrite (IH m w1). reflexivity.
Qed.

(** X14. Emptiness goes through a chain of [filter], [map] and [flatMap]
    calls of any length: on an empty instance the chain returns an empty
    instance, invokes no callback and leaves the world as it was; so a chain
    that returns a present instance was started on a present one, and was
    present after each of its prefixes. *)
Theorem emptiness_propagates (W : Type) (ts : list (transform W)) (w : W) :
  chain ts EmptyOptional w = (Normal EmptyOptional, w) /\
  (forall o r w',
     chain ts o w = (Normal r, w') ->
     Method.isPresent r = true -> Method.isPresent o = true) /\
  (forall ts1 ts2 o r w',
     ts = ts1 ++ ts2 ->
     chain ts o w = (Normal r, w') ->
     Method.isPresent r = true ->
     exists m w1,
       chain ts1 o w = (Normal m, w1) /\ Method.isPresent m = true).
Proof.
  split; [exact (chain_empty ts w) | split].
  - intros [x |] r w' Hc Hr; [reflexivity |].
    rewrite (chain_empty ts w) in Hc. injection Hc as <- _.
    discriminate Hr.
  - intros ts1 ts2 o r w' -> Hc Hr.
    rewrite chain_app in Hc. unfold bind in Hc.
    destruct (chain ts1 o w) as [[m | e] w1]; [| discriminate Hc].
    exists m, w1. split; [reflexivity |].
    destruct m as [y |]; [reflexivity |].
    rewrite (chain_empty ts2 w1) in Hc. injection Hc as <- _.
    discriminate Hr.
Qed.

Lemma emptiness_propagates_witness :
  chain [Map double_or_null; Filter longer_than_one] EmptyOptional 0%nat
    = (Normal EmptyOptional, 0%nat) /\
  chain [Map double_or_null; Map double_or_null]
      (PresentOptional (VNum 1)) 0%nat
    = (Normal (PresentOptional (VNum 4)), 0%nat) /\
  Method.isPresent (PresentOptional (VNum 1)) = true /\
  exists m w1,
    chain [Map double_or_null] (PresentOptional (VNum 1)) 0%nat
      = (Normal m, w1) /\
    Method.isPresent m = true.
Proof.
  destruct (emptiness_propagates nat
              [Map double_or_null; Filter longer_than_one] 0%nat)
    as (Hempty & _).
  destruct (emptiness_propagates nat
              [Map double_or_null; Map double_or_null] 0%nat)
    as (_ & Hstart & Hprefix).
  split; [exact Hempty | split; [reflexivity | split]].
  - exact (Hstart (PresentOptional (VNum 1)) (PresentOptional (VNum 4))
             0%nat eq_refl eq_refl).
  - exact (Hprefix [Map double_or_null] [Map double_or_null]
             (PresentOptional (VNum 1)) (PresentOptional (VNum 4)) 0%nat
             eq_refl eq_refl eq_refl).
Defined.
